(** * easy-error: a shallow embedding of [src/src/lib.rs] and
    [src/src/terminator.rs].

    A boxed [dyn error::Error] is observed only through its [Display] string
    and its [source()].  It is modelled by [DynError], an inductive type: a
    boxed [easy_error::Error] keeps its three fields, any other error type is
    represented by its display string and its optional source.  Because the
    type is inductive, every cause chain is finite and acyclic, which is what
    ownership of the boxed causes guarantees in the crate. *)

From Stdlib Require Import String Ascii List Arith ZArith Lia.
Import ListNotations.
Open Scope string_scope.
#[local] Set Warnings "-register-all".

(** ** [std::panic::Location] and its [Display] ("file:line:col") *)

Record Location := mkLocation {
  loc_file : string;
  loc_line : nat;
  loc_col  : nat
}.

(** Decimal rendering of an unsigned integer, as [{}] prints a [u32]. *)
Fixpoint digits_fuel (fuel n : nat) (acc : string) : string :=
  match fuel with
  | 0 => acc
  | S fuel' =>
      let d := String (ascii_of_nat (48 + Nat.modulo n 10)) EmptyString in
      if Nat.ltb n 10 then d ++ acc
      else digits_fuel fuel' (Nat.div n 10) (d ++ acc)
  end.

Definition nat_to_string (n : nat) : string := digits_fuel (S n) n "".

Definition location_to_string (l : Location) : string :=
  loc_file l ++ ":" ++ nat_to_string (loc_line l) ++ ":"
    ++ nat_to_string (loc_col l).

(** ** Type-erased errors: [Box<dyn error::Error + Send + 'static>] *)

Inductive DynError :=
  (** a boxed [easy_error::Error { ctx, location, cause }] *)
  | Easy (ctx : string) (location : Location) (cause : option DynError)
  (** any other error type, seen through [Display] and [source()] *)
  | Foreign (msg : string) (src : option DynError).

(** [pub struct Error { ctx, location, cause }] *)
Record Error := mkError {
  ctx      : string;
  location : Location;
  cause    : option DynError
}.

(** The unsizing coercion [Box::new(e) as Box<dyn error::Error>] for an
    [easy_error::Error]. *)
Definition box_error (e : Error) : DynError :=
  Easy (ctx e) (location e) (cause e).

(** [impl Display for Error]: [write!(f, "{} ({})", self.ctx, self.location)] *)
Definition error_display (e : Error) : string :=
  ctx e ++ " (" ++ location_to_string (location e) ++ ")".

(** [impl error::Error for Error]: [source] is [self.cause.as_ref()]. *)
Definition error_source (e : Error) : option DynError := cause e.

(** Dynamic dispatch of [Display::fmt] on a [dyn error::Error]. *)
Definition dyn_display (d : DynError) : string :=
  match d with
  | Easy c l k => error_display (mkError c l k)
  | Foreign m _ => m
  end.

(** Dynamic dispatch of [error::Error::source] on a [dyn error::Error]. *)
Definition dyn_source (d : DynError) : option DynError :=
  match d with
  | Easy c l k => error_source (mkError c l k)
  | Foreign _ s => s
  end.

(** ** Constructors *)

(** [Error::new(ctx, cause)]: [to_string] is the [ToString] impl of the
    context type, [caller] the value of [Location::caller()], and [boxed] the
    coercion of the concrete cause type into [dyn error::Error]. *)
Definition new {S E : Type} (to_string : S -> string) (boxed : E -> DynError)
    (caller : Location) (c : S) (e : E) : Error :=
  mkError (to_string c) caller (Some (boxed e)).

(** [err_msg(ctx)] *)
Definition err_msg {S : Type} (to_string : S -> string) (caller : Location)
    (c : S) : Error :=
  mkError (to_string c) caller None.

(** ** [Result<T, E>] and the [ResultExt] extension methods *)

Inductive result (T E : Type) :=
  | Ok (v : T)
  | Err (e : E).
Arguments Ok {T E} v.
Arguments Err {T E} e.

(** [Result::map_err] *)
Definition map_err {T E F : Type} (op : E -> F) (r : result T E) : result T F :=
  match r with
  | Ok v => Ok v
  | Err e => Err (op e)
  end.

Section ResultExt.
Context {T E S : Type}.
(** [E: error::Error + Send + 'static]: the coercion [Box::new(e)] into a
    [dyn error::Error]. *)
Variable boxed : E -> DynError.
(** [S: ToString] *)
Variable to_string : S -> string.
(** [Location::caller()] at the call site of [context]/[with_context]. *)
Variable caller : Location.

(** [fn context<S: ToString>(self, ctx: S) -> Result<T>] *)
Definition context (r : result T E) (c : S) : result T Error :=
  let location := caller in
  map_err (fun e => mkError (to_string c) location (Some (boxed e))) r.

(** [fn with_context<S, F: FnOnce() -> S>(self, ctx_fn: F) -> Result<T>].
    The closure may have effects on some state [St] (say a call counter), so
    it is a state transformer; [map_err] calls it only in its [Err] arm. *)
Definition with_context {St : Type} (r : result T E)
    (ctx_fn : St -> S * St) (st : St) : result T Error * St :=
  let location := caller in
  match r with
  | Ok v => (Ok v, st)
  | Err e =>
      let '(c, st') := ctx_fn st in
      (Err (mkError (to_string c) location (Some (boxed e))), st')
  end.
End ResultExt.

(** ** The [Causes] iterator *)

(** [pub struct Causes<'a> { cause: Option<&'a dyn error::Error> }] *)
Record Causes := mkCauses { next_cause : option DynError }.

(** [Iterator::next]:
    [let cause = self.cause.take();
     self.cause = cause.and_then(error::Error::source); cause] *)
Definition next (it : Causes) : option DynError * Causes :=
  let c := next_cause it in
  (c, mkCauses (match c with Some d => dyn_source d | None => None end)).

(** [Iterator::nth] (default method): [advance_by(n)?] then [next()]. *)
Fixpoint nth (n : nat) (it : Causes) : option DynError :=
  match n with
  | 0 => fst (next it)
  | S n' =>
      match next it with
      | (None, _) => None
      | (Some _, it') => nth n' it'
      end
  end.

(** [ErrorExt::iter_chain] (both impls): [Causes { cause: Some(self) }] *)
Definition iter_chain (d : DynError) : Causes := mkCauses (Some d).

(** [ErrorExt::iter_causes]: [Causes { cause: self.iter_chain().nth(1) }] *)
Definition iter_causes (d : DynError) : Causes := mkCauses (nth 1 (iter_chain d)).

(** The results of [k] successive calls of [next]. *)
Fixpoint next_results (k : nat) (it : Causes) : list (option DynError) :=
  match k with
  | 0 => []
  | S k' => let '(r, it') := next it in r :: next_results k' it'
  end.

(** The source chain of an error, itself first: what following [source()]
    until [None] visits.  Structural on the (acyclic) error value. *)
Fixpoint chain (d : DynError) : list DynError :=
  d :: match d with
       | Easy _ _ (Some d') | Foreign _ (Some d') => chain d'
       | _ => []
       end.

Definition chain_opt (o : option DynError) : list DynError :=
  match o with Some d => chain d | None => [] end.

(** A consuming loop ([for], [Iterator::fold], [Iterator::last]) calls [next]
    until it returns [None]; [fold_fuel] bounds the number of calls, and
    [loop_bound] is a bound that is never reached (see [fold_fuel_enough]). *)
Fixpoint fold_fuel {A : Type} (fuel : nat) (f : A -> DynError -> A) (acc : A)
    (it : Causes) : A :=
  match fuel with
  | 0 => acc
  | S fuel' =>
      match next it with
      | (None, _) => acc
      | (Some x, it') => fold_fuel fuel' f (f acc x) it'
      end
  end.

Definition loop_bound (it : Causes) : nat := S (length (chain_opt (next_cause it))).

Definition fold {A : Type} (f : A -> DynError -> A) (acc : A) (it : Causes) : A :=
  fold_fuel (loop_bound it) f acc it.

(** [Iterator::last]: [self.fold(None, |_, x| Some(x))] *)
Definition last (it : Causes) : option DynError :=
  fold (fun _ x => Some x) None it.

(** A computation that may panic. *)
Inductive outcome (A : Type) :=
  | Ret (a : A)
  | Panic (msg : string).
Arguments Ret {A} a.
Arguments Panic {A} msg.

(** [Option::expect] *)
Definition expect {A : Type} (o : option A) (msg : string) : outcome A :=
  match o with Some a => Ret a | None => Panic msg end.

(** [ErrorExt::find_root_cause] *)
Definition find_root_cause (d : DynError) : outcome DynError :=
  expect (last (iter_chain d)) "source chain should at least contain original error".

(** ** [Terminator] (src/src/terminator.rs) *)

(** [pub struct Terminator { inner: Box<dyn error::Error + 'static> }] *)
Record Terminator := mkTerminator { inner : DynError }.

(** [impl<E: error::Error + 'static> From<E> for Terminator] *)
Definition from {E : Type} (boxed : E -> DynError) (err : E) : Terminator :=
  mkTerminator (boxed err).

Definition newline : string := String (ascii_of_nat 10) EmptyString.

(** [writeln!(f, "{}", s)] on a formatter writing into a [String]. *)
Definition writeln (out s : string) : string := out ++ s ++ newline.

(** The first statement of [impl Debug for Terminator]
    (terminator.rs:29): [writeln!(f, "{}", self.inner)?;], writing the
    display string of the inner error as the first line.  The loop that
    follows (line 30) calls [super::iter_causes], a crate-root function that
    lib.rs does not define ([iter_causes] exists only as a method of
    [ErrorExt]), so the crate does not compile there and that loop has no
    counterpart here. *)
Definition terminator_first_line (t : Terminator) : string :=
  writeln "" (dyn_display (inner t)).

(** ** Chains built by hand: [Error::new(ctx_i, previous)] over a root *)

(** [build root [(c1,l1); ...; (cn,ln)]] is
    [Error::new(c1, Error::new(c2, ... Error::new(cn, root)))], the call of
    [Error::new] for [ci] made at location [li]. *)
Fixpoint build (root : DynError) (ws : list (string * Location)) : DynError :=
  match ws with
  | [] => root
  | (c, l) :: ws' => box_error (new (fun s => s) (fun d => d) l c (build root ws'))
  end.

(** The errors of such a chain, outermost first. *)
Fixpoint layers (root : DynError) (ws : list (string * Location)) : list DynError :=
  match ws with
  | [] => [root]
  | w :: ws' => build root (w :: ws') :: layers root ws'
  end.

(** ** The macros (src/src/macros.rs) and the [?] operator *)

(** [expr?] in a function returning [Result<_, Er>]: on [Err(e)] return
    [Err(From::from(e))], otherwise continue with the value. *)
Definition question {T U Er Er' : Type} (from_err : Er -> Er')
    (r : result T Er) (k : T -> result U Er') : result U Er' :=
  match r with
  | Ok v => k v
  | Err e => Err (from_err e)
  end.

(** [bail!(ctx)]: [return Err($crate::err_msg($ctx).into());] *)
Definition bail {T S Er : Type} (into : Error -> Er) (to_string : S -> string)
    (caller : Location) (c : S) : result T Er :=
  Err (into (err_msg to_string caller c)).

(** [ensure!(cond, ctx)]:
    [if !(cond) { return Err($crate::err_msg($ctx).into()); }], then the rest
    [k] of the function body. *)
Definition ensure {T S Er : Type} (into : Error -> Er) (to_string : S -> string)
    (caller : Location) (cond : bool) (c : S) (k : unit -> result T Er)
    : result T Er :=
  if negb cond then Err (into (err_msg to_string caller c)) else k tt.

(** ** The example program (src/examples/basic.rs) *)

Section Basic.
(** The standard library operations [run] calls: [File::open],
    [Read::read_to_string] (the text it appends to the empty [contents]),
    [str::trim] and [str::parse::<i32>]; their errors are boxed by
    [io_boxed] and [parse_boxed]. *)
Context {File IoError ParseError : Type}.
Variable io_boxed : IoError -> DynError.
Variable parse_boxed : ParseError -> DynError.
Variable open : string -> result File IoError.
Variable read_to_string : File -> result string IoError.
Variable trim : string -> string.
Variable parse : string -> result Z ParseError.
(** The call sites of [.context(..)] (three) and of [ensure!]. *)
Variables loc_open loc_read loc_parse loc_ensure : Location.

(** [std::env::args().nth(1).unwrap_or("example.txt".to_string())] *)
Definition file_name (args : list string) : string :=
  match List.nth_error args 1 with Some a => a | None => "example.txt" end.

(** [ToString] for [&str]: the string itself. *)
Definition str_id (s : string) : string := s.

(** [fn run() -> Result<i32, Error>] *)
Definition run (args : list string) : result Z Error :=
  let file := file_name args in
  question (fun e => e) (context io_boxed str_id loc_open (open file) "Could not open file")
    (fun f =>
  question (fun e => e)
    (context io_boxed str_id loc_read (read_to_string f) "Unable to read file")
    (fun contents =>
  question (fun e => e)
    (context parse_boxed str_id loc_parse (parse (trim contents)) "Could not parse file")
    (fun value =>
  ensure (fun e => e) str_id loc_ensure (negb (Z.eqb value 0)) "Value cannot be zero"
    (fun _ => Ok value)))).

End Basic.

(** ** Concrete inputs *)

Definition example_location : Location := mkLocation "src/main.rs" 7 20.

Definition example_root : DynError := Foreign "No such file or directory" None.

Definition example_wraps : list (string * Location) :=
  [("Unable to get value from file", example_location);
   ("Could not open file", example_location)].

(** The call site of [ensure!(value != 0, "Value cannot be zero")] in examples/basic.rs. *)
Definition value_zero_location : Location := mkLocation "examples/basic.rs" 13 5.

(** An environment for [run] where the file is missing. *)
Definition example_io_boxed (m : string) : DynError := Foreign m None.
Definition example_open_missing (_ : string) : result unit string :=
  Err "No such file or directory".
Definition example_read (_ : unit) : result string string := Ok "0".
Definition example_parse (_ : string) : result Z string := Ok 0%Z.

(** ** General lemmas *)

Lemma chain_eq (d : DynError) : chain d = d :: chain_opt (dyn_source d).
Proof. destruct d as [c l [k|] | m [k|]]; reflexivity. Qed.

Lemma next_none (it : Causes) :
  next_cause it = None -> next it = (None, mkCauses None).
Proof. destruct it as [o]; simpl; intros ->; reflexivity. Qed.

Lemma next_some (it : Causes) (d : DynError) :
  next_cause it = Some d -> next it = (Some d, mkCauses (dyn_source d)).
Proof. destruct it as [o]; simpl; intros ->; reflexivity. Qed.

Lemma next_results_exhausted (k : nat) :
  next_results k (mkCauses None) = repeat None k.
Proof. induction k as [|k IH]; simpl; [reflexivity | now rewrite IH]. Qed.

Lemma next_results_chain (n : nat) :
  forall (o : option DynError) (k : nat), length (chain_opt o) = n ->
  next_results (n + k) (mkCauses o) = (map Some (chain_opt o) ++ repeat None k)%list.
Proof.
  induction n as [|n IH]; intros [d|] k Hlen.
  - simpl in Hlen; rewrite chain_eq in Hlen; discriminate.
  - apply next_results_exhausted.
  - simpl in Hlen |- *. rewrite chain_eq in Hlen |- *. simpl in Hlen |- *.
    rewrite (IH (dyn_source d) k) by lia. reflexivity.
  - discriminate.
Qed.

Lemma fold_fuel_chain {A : Type} (f : A -> DynError -> A) :
  forall (fuel : nat) (o : option DynError) (acc : A),
  length (chain_opt o) < fuel ->
  fold_fuel fuel f acc (mkCauses o) = fold_left f (chain_opt o) acc.
Proof.
  induction fuel as [|fuel IH]; intros o acc Hlt; [lia|].
  destruct o as [d|]; simpl in Hlt |- *; [|reflexivity].
  rewrite chain_eq in Hlt |- *. simpl in Hlt |- *.
  apply IH. lia.
Qed.

Lemma fold_chain {A : Type} (f : A -> DynError -> A) (acc : A) (it : Causes) :
  fold f acc it = fold_left f (chain_opt (next_cause it)) acc.
Proof.
  destruct it as [o]. unfold fold, loop_bound. apply fold_fuel_chain. simpl. lia.
Qed.

(** Every consuming loop over a [Causes] iterator ends within [loop_bound]
    calls of [next]: any larger bound gives the same result. *)
Lemma fold_fuel_enough {A : Type} (f : A -> DynError -> A) (acc : A)
    (it : Causes) (fuel : nat) :
  loop_bound it <= fuel -> fold_fuel fuel f acc it = fold f acc it.
Proof.
  destruct it as [o]. unfold loop_bound. cbn [next_cause]. intros Hle.
  rewrite fold_chain. cbn [next_cause]. apply fold_fuel_chain. lia.
Qed.

Lemma iter_causes_source (d : DynError) :
  iter_causes d = mkCauses (dyn_source d).
Proof. reflexivity. Qed.

Lemma chain_build (root : DynError) (ws : list (string * Location)) :
  dyn_source root = None -> chain (build root ws) = layers root ws.
Proof.
  intros Hroot. induction ws as [|[c l] ws IH]; simpl.
  - rewrite chain_eq, Hroot. reflexivity.
  - rewrite IH. reflexivity.
Qed.

Lemma layers_length (root : DynError) (ws : list (string * Location)) :
  length (layers root ws) = S (length ws).
Proof. induction ws as [|w ws IH]; simpl; [reflexivity | now rewrite IH]. Qed.

Lemma layers_display (root : DynError) (ws : list (string * Location)) :
  map dyn_display (layers root ws)
  = (map (fun '(c, l) => (c ++ " (" ++ location_to_string l ++ ")")%string) ws
     ++ [dyn_display root])%list.
Proof.
  induction ws as [|[c l] ws IH]; simpl; [reflexivity | now rewrite IH].
Qed.

Lemma last_chain_source (n : nat) :
  forall (d dflt : DynError), length (chain d) <= n ->
  dyn_source (List.last (chain d) dflt) = None.
Proof.
  induction n as [|n IH]; intros d dflt Hlen;
    rewrite chain_eq in Hlen |- *; simpl in Hlen; [lia|].
  destruct (dyn_source d) as [d'|] eqn:Hsrc; cbn [chain_opt length] in Hlen |- *.
  - assert (Hl : List.last (d :: chain d') dflt = List.last (chain d') dflt)
      by (rewrite (chain_eq d'); reflexivity).
    rewrite Hl. apply IH. lia.
  - exact Hsrc.
Qed.






Lemma fold_last (l : list DynError) :
  forall (x dflt : DynError) (acc : option DynError),
  fold_left (fun _ y => Some y) (x :: l) acc = Some (List.last (x :: l) dflt).
Proof.
  induction l as [|y l IH]; intros x dflt acc; [reflexivity|].
  change (fold_left (fun _ y => Some y) (y :: l) (Some x)
          = Some (List.last (y :: l) dflt)).
  apply IH.
Qed.



Lemma last_default (a : DynError) (l : list DynError) (y z : DynError) :
  List.last (a :: l) y = List.last (a :: l) z.
Proof.
  revert a. induction l as [|b l IH]; intros a; [reflexivity|].
  change (List.last (b :: l) y = List.last (b :: l) z). apply IH.
Qed.

Lemma last_cons_chain (x d y : DynError) :
  List.last (x :: chain d) y = List.last (chain d) d.
Proof.
  rewrite (chain_eq d).
  change (List.last (d :: chain_opt (dyn_source d)) y
          = List.last (d :: chain_opt (dyn_source d)) d).
  apply last_default.
Qed.

Lemma find_root_cause_last (d : DynError) :
  find_root_cause d = Ret (List.last (chain d) d).
Proof.
  unfold find_root_cause, last. rewrite fold_chain. cbn [next_cause iter_chain chain_opt].
  rewrite chain_eq. rewrite (fold_last _ d d None). reflexivity.
Qed.

Lemma nth_chain_opt (n : nat) :
  forall o : option DynError, nth n (mkCauses o) = List.nth_error (chain_opt o) n.
Proof.
  induction n as [|n IH]; intros [d|]; try reflexivity.
  - simpl. rewrite chain_eq. reflexivity.
  - cbn [nth next next_cause]. rewrite IH. simpl. rewrite chain_eq. reflexivity.
Qed.

(** ** The claims *)

(** C1: for a chain of depth [N] built by hand with [Error::new], each
    wrapping the previous error, over a root without source, [iter_chain]
    yields the [N] errors and [iter_causes] the [N-1] errors below the top,
    from the outermost to the root, and then [None]. *)
Theorem chain_iteration_lengths (root : DynError) (ws : list (string * Location))
    (Hroot : dyn_source root = None) :
  let top := build root ws in
  let N := length (layers root ws) in
  N = S (length ws) /\
  next_results (S N) (iter_chain top) = (map Some (layers root ws) ++ [None])%list /\
  next_results N (iter_causes top) = (map Some (tl (layers root ws)) ++ [None])%list /\
  map dyn_display (layers root ws)
  = (map (fun '(c, l) => (c ++ " (" ++ location_to_string l ++ ")")%string) ws
     ++ [dyn_display root])%list.
Proof.
  intros top N.
  assert (Hc : chain top = layers root ws) by (apply chain_build; exact Hroot).
  assert (HN : N = S (length ws)) by apply layers_length.
  assert (Ht : tl (layers root ws) = chain_opt (dyn_source top))
    by (rewrite <- Hc, chain_eq; reflexivity).
  split; [exact HN|]. split; [|split].
  - unfold iter_chain. replace (S N) with (N + 1) by lia. rewrite <- Hc.
    exact (next_results_chain N (Some top) 1 (f_equal (@length _) Hc)).
  - rewrite iter_causes_source, Ht.
    assert (Hl : length (chain_opt (dyn_source top)) + 1 = N).
    { rewrite <- Ht, HN. pose proof (layers_length root ws) as Hlen.
      destruct (layers root ws); simpl in *; lia. }
    rewrite <- Hl. apply next_results_chain. reflexivity.
  - apply layers_display.
Qed.

(** C2: [context(ctx)] passes an [Ok] value through unchanged; on [Err e]
    it returns an [Error] whose context is [ctx.to_string()] and whose cause
    (and [source()]) is the boxed [e]. *)
Theorem context_ok_err {T E S : Type} (boxed : E -> DynError)
    (to_string : S -> string) (caller : Location) (c : S) :
  (forall v : T, context boxed to_string caller (Ok v) c = Ok v) /\
  (forall e : E, exists er : Error,
     context boxed to_string caller (Err (T := T) e) c = Err er /\
     ctx er = to_string c /\ cause er = Some (boxed e) /\
     error_source er = Some (boxed e)).
Proof.
  split; intros.
  - reflexivity.
  - eexists. repeat split.
Qed.


(** C4 (as stated): the line that the [Debug] rendering of
    [Terminator::from(err_msg("Value cannot be zero"))] writes first is not
    [Value cannot be zero]. *)
Lemma terminator_value_zero_counterexample :
  terminator_first_line
    (from box_error (err_msg str_id value_zero_location "Value cannot be zero"))
  <> writeln "" "Value cannot be zero".
Proof. vm_compute. discriminate. Qed.

(** C4 (amended): [Terminator::from(err_msg("Value cannot be zero"))] holds
    an error without source whose display string, the line the rendering
    writes first, is [Value cannot be zero (<location>)], the location being
    that of the [err_msg] call. *)
Theorem terminator_value_zero (caller : Location) :
  let t := from box_error (err_msg str_id caller "Value cannot be zero") in
  dyn_display (inner t)
    = "Value cannot be zero (" ++ location_to_string caller ++ ")" /\
  terminator_first_line t
    = writeln "" ("Value cannot be zero (" ++ location_to_string caller ++ ")") /\
  dyn_source (inner t) = None.
Proof. repeat split. Qed.

(** C5: an [Error] displays as its context followed by [" (<location>)"];
    its cause plays no part in it. *)
Theorem error_display_context (e : Error) :
  error_display e = ctx e ++ " (" ++ location_to_string (location e) ++ ")" /\
  (forall k : option DynError,
     error_display (mkError (ctx e) (location e) k) = error_display e) /\
  dyn_display (box_error e) = error_display e.
Proof. destruct e; repeat split. Qed.

(** C6: [Error::new(ctx, cause)] displays as [ctx.to_string()] (followed by
    the location) and its [source()] is the boxed [cause]. *)
Theorem new_display_source {S E : Type} (to_string : S -> string)
    (boxed : E -> DynError) (caller : Location) (c : S) (e : E) :
  let er := new to_string boxed caller c e in
  error_display er = to_string c ++ " (" ++ location_to_string caller ++ ")" /\
  error_source er = Some (boxed e) /\
  dyn_source (box_error er) = Some (boxed e).
Proof. repeat split. Qed.

(** C7: [with_context(ctx_fn)] on [Ok v] returns [Ok v] and leaves the
    closure's state untouched (the closure is not called): two closures give
    the same result there. *)
Theorem with_context_ok_lazy {T E S St : Type} (boxed : E -> DynError)
    (to_string : S -> string) (caller : Location) (v : T) :
  (forall (f : St -> S * St) (st : St),
     with_context boxed to_string caller (Ok (E := E) v) f st = (Ok v, st)) /\
  (forall (f g : St -> S * St) (st : St),
     with_context boxed to_string caller (Ok (E := E) v) f st
     = with_context boxed to_string caller (Ok (E := E) v) g st).
Proof. split; intros; reflexivity. Qed.

(** C8: once [next] has returned [None], the iterator is left empty and
    every later call of [next] returns [None]. *)
Theorem next_after_exhaustion (it : Causes) (k : nat)
    (Hex : fst (next it) = None) :
  snd (next it) = mkCauses None /\
  next_results k (snd (next it)) = repeat None k.
Proof.
  destruct it as [[d|]]; simpl in Hex; [discriminate|].
  split; [reflexivity | apply next_results_exhausted].
Qed.

(** C9: [err_msg(ctx)] has no source. *)
Theorem err_msg_no_source {S : Type} (to_string : S -> string)
    (caller : Location) (c : S) :
  error_source (err_msg to_string caller c) = None /\
  dyn_source (box_error (err_msg to_string caller c)) = None.
Proof. split; reflexivity. Qed.

(** C10: [find_root_cause] never reaches its [expect] panic: it returns the
    last error of the chain, which has no source. *)
Theorem find_root_cause_total (d : DynError) :
  exists r : DynError,
    find_root_cause d = Ret r /\ r = List.last (chain d) d /\ dyn_source r = None.
Proof.
  exists (List.last (chain d) d). split; [|split; [reflexivity|]].
  - unfold find_root_cause, last. rewrite fold_chain. cbn [next_cause iter_chain chain_opt].
    rewrite chain_eq. rewrite (fold_last _ d d None). reflexivity.
  - apply (last_chain_source (length (chain d))). lia.
Qed.

(** ** Witnesses *)

Lemma chain_iteration_lengths_witness :
  dyn_source example_root = None /\
  next_results 4 (iter_chain (build example_root example_wraps))
  = (map Some (layers example_root example_wraps) ++ [None])%list.
Proof.
  split; [reflexivity|].
  exact (proj1 (proj2 (chain_iteration_lengths example_root example_wraps eq_refl))).
Defined.

Lemma next_after_exhaustion_witness :
  fst (next (iter_causes (box_error (err_msg (fun s : string => s) example_location "x"))))
  = None /\
  next_results 3 (snd (next (iter_causes
    (box_error (err_msg (fun s : string => s) example_location "x"))))) = [None; None; None].
Proof.
  split; [reflexivity|].
  exact (proj2 (next_after_exhaustion
    (iter_causes (box_error (err_msg (fun s : string => s) example_location "x"))) 3
    eq_refl)).
Defined.

(** ** Further properties of the library *)

(** [nth(n)] on [iter_chain(d)] is the [n]-th error of the source chain. *)
Theorem nth_iter_chain (n : nat) (d : DynError) :
  nth n (iter_chain d) = List.nth_error (chain d) n.
Proof. apply nth_chain_opt. Qed.

(** For every error, [iter_chain] yields each error of its source chain in
    turn, then only [None]. *)
Theorem iter_chain_exhausts (d : DynError) (k : nat) :
  next_results (length (chain d) + k) (iter_chain d)
  = (map Some (chain d) ++ repeat None k)%list.
Proof. exact (next_results_chain (length (chain d)) (Some d) k eq_refl). Qed.

(** [iter_causes] yields what [iter_chain] yields, without its first item. *)
Theorem iter_causes_drops_self (d : DynError) (k : nat) :
  next_results k (iter_causes d) = tl (next_results (S k) (iter_chain d)).
Proof. rewrite iter_causes_source. reflexivity. Qed.

(** [find_root_cause] returns the error itself exactly when it has no
    source. *)
Theorem find_root_cause_self_iff (d : DynError) :
  find_root_cause d = Ret d <-> dyn_source d = None.
Proof.
  rewrite find_root_cause_last. split.
  - intros H. injection H as H.
    rewrite <- H. apply (last_chain_source (length (chain d))). lia.
  - intros H. rewrite chain_eq, H. reflexivity.
Qed.

(** Wrapping a cause with [Error::new] keeps its root cause. *)
Theorem find_root_cause_new {S E : Type} (to_string : S -> string)
    (boxed : E -> DynError) (caller : Location) (c : S) (e : E) :
  find_root_cause (box_error (new to_string boxed caller c e))
  = find_root_cause (boxed e).
Proof.
  rewrite !find_root_cause_last. cbn [new box_error ctx location cause chain].
  rewrite last_cons_chain. reflexivity.
Qed.

(** [context] on [Err(e)] adds exactly one error on top of the source chain
    of [e], and keeps its root cause. *)
Theorem context_err_chain {T E S : Type} (boxed : E -> DynError)
    (to_string : S -> string) (caller : Location) (c : S) (e : E) :
  exists er : Error,
    context boxed to_string caller (Err (T := T) e) c = Err er /\
    chain (box_error er) = box_error er :: chain (boxed e) /\
    find_root_cause (box_error er) = find_root_cause (boxed e).
Proof.
  eexists. split; [reflexivity|]. split; [reflexivity|].
  rewrite !find_root_cause_last. cbn [box_error ctx location cause chain].
  rewrite last_cons_chain. reflexivity.
Qed.

(** [with_context] with a closure that only returns [c] is [context c]. *)
Theorem with_context_pure {T E S St : Type} (boxed : E -> DynError)
    (to_string : S -> string) (caller : Location) (r : result T E) (c : S)
    (st : St) :
  with_context boxed to_string caller r (fun st0 => (c, st0)) st
  = (context boxed to_string caller r c, st).
Proof. destruct r; reflexivity. Qed.

(** On [Err(e)], [with_context] calls the closure once: the state is the
    one the closure leaves, and the context is the closure's result. *)
Theorem with_context_err_once {T E S St : Type} (boxed : E -> DynError)
    (to_string : S -> string) (caller : Location) (e : E)
    (f : St -> S * St) (st : St) :
  with_context boxed to_string caller (Err (T := T) e) f st
  = (Err (mkError (to_string (fst (f st))) caller (Some (boxed e))), snd (f st)).
Proof. simpl. destruct (f st); reflexivity. Qed.


(** ** Properties of the example program (src/examples/basic.rs) *)

Section BasicProofs.
Context {File IoError ParseError : Type}.
Variable io_boxed : IoError -> DynError.
Variable parse_boxed : ParseError -> DynError.
Variable open : string -> result File IoError.
Variable read_to_string : File -> result string IoError.
Variable trim : string -> string.
Variable parse : string -> result Z ParseError.
Variables loc_open loc_read loc_parse loc_ensure : Location.

Let run' := run io_boxed parse_boxed open read_to_string trim parse
              loc_open loc_read loc_parse loc_ensure.

(** [run] succeeds exactly when the file opens, reads and parses to a
    non-zero value, which it returns. *)
Theorem run_ok_iff (args : list string) (v : Z) :
  run' args = Ok v <->
  exists f contents,
    open (file_name args) = Ok f /\ read_to_string f = Ok contents /\
    parse (trim contents) = Ok v /\ v <> 0%Z.
Proof.
  unfold run', run, question, context, map_err, ensure.
  split.
  - destruct (open (file_name args)) as [f|x] eqn:Ho; [|discriminate].
    destruct (read_to_string f) as [contents|x] eqn:Hr; [|discriminate].
    destruct (parse (trim contents)) as [w|x] eqn:Hp; [|discriminate].
    destruct (Z.eqb w 0) eqn:Hw; simpl; [discriminate|].
    intros H. injection H as <-. exists f, contents.
    repeat split; try assumption. apply Z.eqb_neq. exact Hw.
  - intros (f & contents & Ho & Hr & Hp & Hv). rewrite Ho, Hr, Hp.
    apply Z.eqb_neq in Hv. rewrite Hv. reflexivity.
Qed.

(** Every error [run] returns is one of four: a [.context] error over the
    I/O error of [File::open] or of [read_to_string], a [.context] error over
    the parse error, or the source-less [ensure!] error for a zero value. *)
Theorem run_error_cases (args : list string) (er : Error) :
  run' args = Err er ->
  (exists x, open (file_name args) = Err x /\
     er = mkError "Could not open file" loc_open (Some (io_boxed x))) \/
  (exists f x, open (file_name args) = Ok f /\ read_to_string f = Err x /\
     er = mkError "Unable to read file" loc_read (Some (io_boxed x))) \/
  (exists f contents x, open (file_name args) = Ok f /\
     read_to_string f = Ok contents /\ parse (trim contents) = Err x /\
     er = mkError "Could not parse file" loc_parse (Some (parse_boxed x))) \/
  (exists f contents, open (file_name args) = Ok f /\
     read_to_string f = Ok contents /\ parse (trim contents) = Ok 0%Z /\
     er = err_msg str_id loc_ensure "Value cannot be zero").
Proof.
  unfold run', run, question, context, map_err, ensure.
  destruct (open (file_name args)) as [f|x] eqn:Ho.
  2:{ intros H. injection H as <-. left. exists x. repeat split; try assumption; reflexivity. }
  destruct (read_to_string f) as [contents|x] eqn:Hr.
  2:{ intros H. injection H as <-. right; left. exists f, x. repeat split; try assumption; reflexivity. }
  destruct (parse (trim contents)) as [w|x] eqn:Hp.
  2:{ intros H. injection H as <-. right; right; left. exists f, contents, x.
      repeat split; try assumption; reflexivity. }
  destruct (Z.eqb w 0) eqn:Hw; simpl; [|discriminate].
  intros H. injection H as <-. apply Z.eqb_eq in Hw. subst w.
  right; right; right. exists f, contents. repeat split; try assumption; reflexivity.
Qed.

End BasicProofs.

Lemma run_error_cases_witness :
  run example_io_boxed example_io_boxed example_open_missing example_read
    str_id example_parse example_location example_location example_location
    example_location []
  = Err (mkError "Could not open file" example_location
           (Some (Foreign "No such file or directory" None))) /\
  ((exists x, example_open_missing (file_name []) = Err x /\
     mkError "Could not open file" example_location
       (Some (Foreign "No such file or directory" None))
     = mkError "Could not open file" example_location (Some (example_io_boxed x))) \/
  (exists f x, example_open_missing (file_name []) = Ok f /\
     example_read f = Err x /\
     mkError "Could not open file" example_location
       (Some (Foreign "No such file or directory" None))
     = mkError "Unable to read file" example_location (Some (example_io_boxed x))) \/
  (exists f contents x, example_open_missing (file_name []) = Ok f /\
     example_read f = Ok contents /\ example_parse (str_id contents) = Err x /\
     mkError "Could not open file" example_location
       (Some (Foreign "No such file or directory" None))
     = mkError "Could not parse file" example_location (Some (example_io_boxed x))) \/
  (exists f contents, example_open_missing (file_name []) = Ok f /\
     example_read f = Ok contents /\ example_parse (str_id contents) = Ok 0%Z /\
     mkError "Could not open file" example_location
       (Some (Foreign "No such file or directory" None))
     = err_msg str_id example_location "Value cannot be zero")).
Proof.
  split; [reflexivity|].
  exact (run_error_cases example_io_boxed example_io_boxed example_open_missing
           example_read str_id example_parse example_location example_location
           example_location example_location [] _ eq_refl).
Defined.
